(** * Streambench zero-shot agents: response parsing and dispatch

    A shallow embedding of the parsing logic of [zeroshot.py]:
    [ClassificationAgent.extract_label], [SQLGenerationAgent.parse_sql]
    and the benchmark dispatch of the [__main__] block.

    Conventions of the embedding.
    - A Python [str] is a [string]; a character is a code point below 256.
      In that range the regex class [\d] is exactly ['0'..'9'] and the
      whitespace of [str.strip] is the set listed in [is_space].
    - Python integers are [Z]: unbounded.  The conversions between
      integers and decimal strings, [int] and [str], raise [ValueError]
      above the interpreter's limit of [max_str_digits] digits, which the
      program leaves at its default.
    - A [dict] is an association list in insertion order; its keys are
      Python values: integers, strings, or values of another type seen
      through what the code does with a key.
    - [print] and the process-wide random source are effects on an explicit
      [world]; exceptions are the [Raise] outcome. *)

From Stdlib Require Import String Ascii List ZArith NArith Arith Bool Lia.
From Stdlib Require Import Decimal DecimalString DecimalFacts DecimalPos DecimalZ.
From Equations Require Import Equations.
Import ListNotations.

Local Open Scope string_scope.

(** ** Python strings *)

Module PyStr.

(** [\d] on a code point below 256. *)
Definition is_digit (c : ascii) : bool :=
  let n := N_of_ascii c in ((48 <=? n) && (n <=? 57))%N.

(** Whitespace of [str.strip()] on a code point below 256:
    TAB..CR, FS..US, SPACE, NEL (0x85), NBSP (0xA0). *)
Definition is_space (c : ascii) : bool :=
  let n := N_of_ascii c in
  (((9 <=? n) && (n <=? 13)) || ((28 <=? n) && (n <=? 32))
   || (n =? 133) || (n =? 160))%N.

Fixpoint lstrip (s : string) : string :=
  match s with
  | EmptyString => EmptyString
  | String c s' => if is_space c then lstrip s' else s
  end.

Fixpoint rstrip (s : string) : string :=
  match s with
  | EmptyString => EmptyString
  | String c s' =>
      match rstrip s' with
      | EmptyString => if is_space c then EmptyString else String c EmptyString
      | r => String c r
      end
  end.

(** [s.strip()] *)
Definition strip (s : string) : string := rstrip (lstrip s).

(** [sys.get_int_max_str_digits()]: the default limit on the number of
    digits that [int] reads from a string and [str] writes for an integer. *)
Definition max_str_digits : nat := 4300.

(** The integer a decimal literal with an optional sign denotes, if it is
    one.  (Python also accepts surrounding whitespace and underscores
    between digits; the digit runs the agent passes have neither.) *)
Definition literal_value (s : string) : option Z :=
  match s with
  | String "-" s' => option_map (fun u => Z.opp (Z.of_uint u)) (NilZero.uint_of_string s')
  | String "+" s' => option_map Z.of_uint (NilZero.uint_of_string s')
  | _ => option_map Z.of_uint (NilZero.uint_of_string s)
  end.

(** The number of digits [int] scans after the sign, before it converts. *)
Fixpoint leading_digits (s : string) : nat :=
  match s with
  | EmptyString => 0
  | String c s' => if is_digit c then S (leading_digits s') else 0
  end.

Definition scanned_digits (s : string) : nat :=
  match s with
  | String "-" s' => leading_digits s'
  | String "+" s' => leading_digits s'
  | _ => leading_digits s
  end.

(** [int(s)]; [None] is [ValueError]: more than [max_str_digits] digits,
    or not a literal. *)
Definition py_int (s : string) : option Z :=
  if (max_str_digits <? scanned_digits s)%nat then None else literal_value s.

(** The decimal numeral of an integer, and the number of its digits. *)
Definition decimal (z : Z) : string := NilZero.string_of_int (Z.to_int z).

Definition num_digits (z : Z) : nat := String.length (decimal (Z.abs z)).

(** [str(z)] for an integer [z]; [None] is [ValueError]: more than
    [max_str_digits] digits. *)
Definition str_of_int (z : Z) : option string :=
  if (max_str_digits <? num_digits z)%nat then None else Some (decimal z).

(** The messages of the two [ValueError]s of the limit. *)
Definition exceeds_limit_str : string :=
  "Exceeds the limit (4300 digits) for integer string conversion; "
  ++ "use sys.set_int_max_str_digits() to increase the limit".

Definition exceeds_limit_int (digits : nat) : string :=
  "Exceeds the limit (4300 digits) for integer string conversion: value has "
  ++ NilZero.string_of_uint (Nat.to_uint digits)
  ++ " digits; use sys.set_int_max_str_digits() to increase the limit".

(** [s.startswith(p)] *)
Fixpoint startswith (s p : string) {struct p} : bool :=
  match p with
  | EmptyString => true
  | String a p' =>
      match s with
      | EmptyString => false
      | String b s' => Ascii.eqb a b && startswith s' p'
      end
  end.

End PyStr.

(** ** The two regular expressions *)

Module Re.
Import PyStr.

(** [(\d+)\.] tried at the start of [s], as the backtracking matcher runs
    it: the greedy [\d+] first tries to take one more digit and only then
    to stop and match the period.  The result is group 1 and the text after
    the match. *)
Fixpoint match_digits_dot (s : string) : option (string * string) :=
  match s with
  | EmptyString => None
  | String c s' =>
      if is_digit c then
        match match_digits_dot s' with
        | Some (ds, rest) => Some (String c ds, rest)
        | None =>
            match s' with
            | String "." rest => Some (String c EmptyString, rest)
            | _ => None
            end
        end
      else None
  end.

Lemma match_digits_dot_shorter s g rest :
  match_digits_dot s = Some (g, rest) -> String.length rest < String.length s.
Proof.
  revert g rest; induction s as [|c s IH]; simpl; intros g rest; [discriminate|].
  destruct (is_digit c); [|discriminate].
  destruct (match_digits_dot s) as [[ds r]|] eqn:E.
  - intros [= <- <-]. specialize (IH _ _ eq_refl). lia.
  - destruct s as [|d s']; [discriminate|].
    destruct (Ascii.eqb_spec d "."); subst.
    + intros [= <- <-]. simpl. lia.
    + destruct d as [[|] [|] [|] [|] [|] [|] [|] [|]]; try discriminate; congruence.
Qed.

Definition inspect {A : Type} (a : A) : {b : A | a = b} := exist _ a eq_refl.

(** [re.findall(r"(\d+)\.", s)]: matches are taken left to right and do not
    overlap; after a match the scan resumes behind it, after a failure one
    character further. *)
Equations? findall (s : string) : list string by wf (String.length s) lt :=
  findall EmptyString := [];
  findall (String c s') with inspect (match_digits_dot (String c s')) => {
    | exist _ (Some (g, rest)) _ := g :: findall rest;
    | exist _ None _ := findall s' }.
Proof.
  pose proof (match_digits_dot_shorter (String c s') g rest e) as Hlt.
  simpl in Hlt. lia.
Qed.

(** A literal tried at the start of [s]; the result is the text after it. *)
Fixpoint match_literal (lit s : string) : option string :=
  match lit, s with
  | EmptyString, _ => Some s
  | String a lit', String b s' =>
      if Ascii.eqb a b then match_literal lit' s' else None
  | String _ _, EmptyString => None
  end.

(** [[\s\S]*?```] tried at the start of [s]: the lazy star first tries to
    stop (the closing fence must start here) and only then takes one more
    character, whatever it is.  The result is the text taken by the star. *)
Fixpoint match_lazy_fence (s : string) : option string :=
  match match_literal "```" s with
  | Some _ => Some EmptyString
  | None =>
      match s with
      | EmptyString => None
      | String c s' => option_map (String c) (match_lazy_fence s')
      end
  end.

(** [```sql([\s\S]*?)```] tried at the start of [s]; the result is group 1. *)
Definition match_sql_block (s : string) : option string :=
  match match_literal "```sql" s with
  | Some after => match_lazy_fence after
  | None => None
  end.

(** [re.search(r"```sql([\s\S]*?)```", s)]: the first start position, from
    the left, at which the pattern matches; the result is [match.group(1)]. *)
Fixpoint search_sql (s : string) : option string :=
  match match_sql_block s with
  | Some g => Some g
  | None =>
      match s with
      | EmptyString => None
      | String _ s' => search_sql s'
      end
  end.

End Re.

(** ** Values, dictionaries, effects *)

(** The Python values that occur as dictionary keys and as [prediction]:
    an [int], a [str], or a value of another type.  Of such a value the code
    uses two things only: whether it equals an integer ([equal_int] is that
    integer: 1 for [1.0], for [True] and for [Fraction(1)]; [None] for a
    value that equals no integer) and its [str()] ([shown]). *)
Inductive pyval : Type :=
| PInt (z : Z)
| PStr (s : string)
| POther (equal_int : option Z) (shown : string).

(** [n == k] for an integer [n]: an [int] is never equal to a [str]. *)
Definition eq_int (n : Z) (k : pyval) : bool :=
  match k with
  | PInt z => Z.eqb n z
  | PStr _ => false
  | POther (Some z) _ => Z.eqb n z
  | POther None _ => false
  end.

(** [str(v)]; [None] is the [ValueError] of the digit limit. *)
Definition py_str (v : pyval) : option string :=
  match v with
  | PInt z => PyStr.str_of_int z
  | PStr s => Some s
  | POther _ shown => Some shown
  end.

Definition dict : Type := list (pyval * string).

(** [list(d.keys())] *)
Definition keys (d : dict) : list pyval := map fst d.

(** [n in d] for an integer [n]. *)
Definition contains (n : Z) (d : dict) : bool := existsb (eq_int n) (keys d).

Inductive exn : Type :=
| IndexError
| ValueError (msg : string).

Inductive outcome (A : Type) : Type :=
| Ret (a : A)
| Raise (e : exn).
Arguments Ret {A} a.
Arguments Raise {A} e.

(** What the agents print: red for the three fallbacks, yellow for the
    ambiguous extraction. *)
Inductive message : Type :=
| NotInLabelSet (pred_text : string)
| NotExactlyOne (numbers : list string)
| NoNumbers (pred_text : string)
| NoSQLFound.

(** The state the code acts on: the random source and standard output. *)
Record world (G : Type) : Type := World { rng : G; stdout : list message }.
Arguments World {G} rng stdout.
Arguments rng {G} w.
Arguments stdout {G} w.

Definition M (G A : Type) : Type := world G -> outcome A * world G.

Definition ret {G A} (a : A) : M G A := fun w => (Ret a, w).

Definition raise {G A} (e : exn) : M G A := fun w => (Raise e, w).

Definition bind {G A B} (c : M G A) (k : A -> M G B) : M G B :=
  fun w =>
    match c w with
    | (Ret a, w') => k a w'
    | (Raise e, w') => (Raise e, w')
    end.

Declare Scope py_scope.
Delimit Scope py_scope with py.
Notation "x <- c ;; k" := (bind c (fun x => k))
  (at level 61, c at next level, right associativity) : py_scope.
Notation "c ;; k" := (bind c (fun _ => k))
  (at level 61, right associativity) : py_scope.

Definition print {G} (m : message) : M G unit :=
  fun w => (Ret tt, World (rng w) (stdout w ++ [m])).

(** [seq[0]] *)
Definition first_item {G A} (seq : list A) : M G A :=
  match seq with
  | x :: _ => ret x
  | [] => raise IndexError
  end.

(** [int(s)] as a computation. *)
Definition int_ {G} (s : string) : M G Z :=
  match PyStr.py_int s with
  | Some z => ret z
  | None =>
      if (PyStr.max_str_digits <? PyStr.scanned_digits s)%nat
      then raise (ValueError (PyStr.exceeds_limit_int (PyStr.scanned_digits s)))
      else raise (ValueError ("invalid literal for int() with base 10: " ++ s))
  end.

(** [str(v)] as a computation. *)
Definition str_ {G} (v : pyval) : M G string :=
  match py_str v with
  | Some s => ret s
  | None => raise (ValueError PyStr.exceeds_limit_str)
  end.

(** ** The agents *)

Section Agents.

Context {G : Type}.

(** The random source: [randbelow g n] is [Random._randbelow(n)] run in
    state [g], with the state it leaves. *)
Variable randbelow : G -> nat -> nat * G.

(** [random.choice(seq)] *)
Definition random_choice {A} (seq : list A) : M G A :=
  fun w =>
    match seq with
    | [] => (Raise IndexError, w)
    | _ :: _ =>
        let (i, g') := randbelow (rng w) (length seq) in
        match nth_error seq i with
        | Some x => (Ret x, World g' (stdout w))
        | None => (Raise IndexError, World g' (stdout w))
        end
    end.

Local Open Scope py_scope.

(** [ClassificationAgent.extract_label] *)
Definition extract_label (pred_text : string) (label2desc : dict) : M G string :=
  let numbers := Re.findall pred_text in
  prediction <-
    (if (length numbers =? 1)%nat then
       number <- first_item numbers ;;
       n <- int_ number ;;
       if contains n label2desc then ret (PStr number)
       else print (NotInLabelSet pred_text) ;;
            random_choice (keys label2desc)
     else if (1 <? length numbers)%nat then
       print (NotExactlyOne numbers) ;;
       number <- first_item numbers ;;
       ret (PStr number)
     else
       print (NoNumbers pred_text) ;;
       random_choice (keys label2desc)) ;;
  str_ prediction.

(** [SQLGenerationAgent.parse_sql] *)
Definition parse_sql (pred_text : string) : M G string :=
  match Re.search_sql pred_text with
  | Some group1 => ret (PyStr.strip group1)
  | None => print NoSQLFound ;; ret pred_text
  end.

End Agents.

(** ** Benchmark dispatch of the command line *)

Inductive agent_class : Type :=
| ClassificationAgent
| SQLGenerationAgent.

(** The [if]/[elif]/[else] on [args.bench_name]: the pair
    [(max_tokens, agent_name)], or the [ValueError]. *)
Definition select_agent (bench_name : string) : outcome (Z * agent_class) :=
  if PyStr.startswith bench_name "classification" then
    Ret (32%Z, ClassificationAgent)
  else if PyStr.startswith bench_name "sql_generation" then
    Ret (512%Z, SQLGenerationAgent)
  else Raise (ValueError ("Invalid benchmark name: " ++ bench_name)).

(** ** A concrete random source, to run the agents *)

(** A counter: [randbelow] returns the state reduced modulo [n] and steps
    the state. *)
Definition counter_randbelow (g n : nat) : nat * nat := (g mod n, S g).

(** ** Vocabulary of the statements *)

(** A non-empty run of digits: what group 1 of [(\d+)\.] can hold. *)
Fixpoint all_digits (s : string) : bool :=
  match s with
  | EmptyString => true
  | String c s' => PyStr.is_digit c && all_digits s'
  end.

Definition is_digit_run (s : string) : bool :=
  match s with
  | EmptyString => false
  | String _ _ => all_digits s
  end.

Fixpoint all_space (s : string) : bool :=
  match s with
  | EmptyString => true
  | String c s' => PyStr.is_space c && all_space s'
  end.

(** The first and the last character of a string. *)
Definition head_char (s : string) : option ascii :=
  match s with
  | EmptyString => None
  | String c _ => Some c
  end.

Fixpoint last_char (s : string) : option ascii :=
  match s with
  | EmptyString => None
  | String c EmptyString => Some c
  | String _ s' => last_char s'
  end.

Definition not_space (o : option ascii) : Prop :=
  match o with
  | Some c => PyStr.is_space c = false
  | None => True
  end.

Definition is_int_key (k : pyval) : bool :=
  match k with PInt _ => true | _ => false end.

Definition is_str_key (k : pyval) : bool :=
  match k with PStr _ => true | _ => false end.

(** [str()] of every key succeeds: no integer key has more digits than
    the limit. *)
Definition has_str (k : pyval) : bool :=
  match py_str k with Some _ => true | None => false end.

Definition keys_have_str (d : dict) : Prop := forallb has_str (keys d) = true.

(** A token that [int] accepts: at most [max_str_digits] digits. *)
Definition within_limit (tok : string) : bool :=
  (String.length tok <=? PyStr.max_str_digits)%nat.

(** A string of [n] nines, and the smallest integer of 4301 digits. *)
Fixpoint nines (n : nat) : string :=
  match n with
  | O => EmptyString
  | S n' => String "9" (nines n')
  end.

Definition huge_key : Z := (10 ^ 4300)%Z.

(** A response whose only token has 4301 digits. *)
Definition long_token_text : string := nines 4301 ++ ".".

(** A LabelSet: a dictionary whose keys are integers. *)
Definition int_keyed (d : dict) : Prop := forallb is_int_key (keys d) = true.

(** A dictionary as the annotation [dict[str, str]] declares it. *)
Definition str_keyed (d : dict) : Prop := forallb is_str_key (keys d) = true.

(** The string [r] encodes an integer that is a key of [d]. *)
Definition is_label_key (d : dict) (r : string) : bool :=
  match PyStr.py_int r with
  | Some z => contains z d
  | None => false
  end.

(** The random source honours its contract: a draw below [n] is below [n]. *)
Definition randbelow_ok {G : Type} (randbelow : G -> nat -> nat * G) : Prop :=
  forall g n, 0 < n -> fst (randbelow g n) < n.

(** The fallback of [extract_label]: print the warning, draw a key. *)
Definition fallback {G : Type} (randbelow : G -> nat -> nat * G)
    (m : message) (d : dict) : M G string :=
  (print m ;; prediction <- random_choice randbelow (keys d) ;;
   str_ prediction)%py.

(** The LabelSet of the documented examples: [{1: "flu", 2: "cold"}]. *)
Definition flu_cold : dict := [(PInt 1%Z, "flu"); (PInt 2%Z, "cold")].

(** The same labels under string keys, as [dict[str, str]] declares. *)
Definition flu_cold_str : dict := [(PStr "1", "flu"); (PStr "2", "cold")].

(** A LabelSet whose only key has 4301 digits, and a dictionary whose only
    key is the float [1.0]. *)
Definition flu_huge : dict := [(PInt huge_key, "flu")].

Definition flu_float : dict := [(POther (Some 1%Z) "1.0", "flu")].

(** The line feed, and the response of the documented SQL example. *)
Definition LF : string := String "010"%char EmptyString.

Definition sql_example : string :=
  "prefix ```sql" ++ LF ++ "SELECT 1;" ++ LF ++ "``` suffix".

(** ** The rest of the agents' code *)

(** One line of the option list of [ClassificationAgent.__call__]:
    [f"{str(k)}. {v}"]; [None] is the [ValueError] of [str(k)]. *)
Definition option_line (kv : pyval * string) : option string :=
  option_map (fun k => k ++ ". " ++ snd kv) (py_str (fst kv)).

(** The list comprehension over [label2desc.items()], in order. *)
Fixpoint option_lines (label2desc : dict) : option (list string) :=
  match label2desc with
  | [] => Some []
  | kv :: rest =>
      match option_line kv with
      | Some line => option_map (cons line) (option_lines rest)
      | None => None
      end
  end.

(** [option_text] of [ClassificationAgent.__call__]: the lines joined by
    line feeds. *)
Definition option_text (label2desc : dict) : option string :=
  option_map (String.concat LF) (option_lines label2desc).

(** The list comprehension of [LocalModelAgent.generate_response]: each
    generated sequence without its first [len(input_ids)] tokens; [zip]
    stops at the shorter list and a slice past the end is empty. *)
Definition new_generated_ids {A : Type}
    (input_ids generated_ids : list (list A)) : list (list A) :=
  map (fun p => skipn (length (fst p)) (snd p)) (combine input_ids generated_ids).

(** Whether a token of [(\d+)\.] could lie across the seam of [a ++ b]:
    [a] ends in a digit and [b] starts with a digit or a period. *)
Definition ends_in_digit (a : string) : bool :=
  match last_char a with
  | Some c => PyStr.is_digit c
  | None => false
  end.

Definition starts_token_tail (b : string) : bool :=
  match head_char b with
  | Some c => PyStr.is_digit c || Ascii.eqb c "."
  | None => false
  end.

Definition can_straddle (a b : string) : bool :=
  ends_in_digit a && starts_token_tail b.

(** ** Facts about strings and integers *)

Module PyStrFacts.
Import PyStr.

Lemma is_digit_uint_of_char c u :
  is_digit c = true -> exists u', uint_of_char c (Some u) = Some u'.
Proof.
  destruct c as [[|] [|] [|] [|] [|] [|] [|] [|]]; cbv; try discriminate;
    intros _; eexists; reflexivity.
Qed.

Lemma all_digits_uint_of_string s :
  all_digits s = true -> exists u, NilEmpty.uint_of_string s = Some u.
Proof.
  induction s as [|c s IH]; simpl.
  - intros _. now exists Nil.
  - intros H. apply andb_true_iff in H as [Hc Hs].
    destruct (IH Hs) as [u ->]. now apply is_digit_uint_of_char.
Qed.

(** A string that starts with a digit carries no sign. *)
Lemma unsigned_head c s :
  is_digit c = true ->
  literal_value (String c s)
  = option_map Z.of_uint (NilZero.uint_of_string (String c s))
  /\ scanned_digits (String c s) = leading_digits (String c s).
Proof.
  destruct c as [[|] [|] [|] [|] [|] [|] [|] [|]]; cbv [is_digit N_of_ascii N_of_digits];
    simpl; try discriminate; split; reflexivity.
Qed.

Lemma leading_digits_all s :
  all_digits s = true -> leading_digits s = String.length s.
Proof.
  induction s as [|c s IH]; simpl; [reflexivity|]. intros H.
  apply andb_true_iff in H as [Hc Hs]. rewrite Hc. now rewrite IH.
Qed.

Lemma scanned_digits_run s :
  is_digit_run s = true -> scanned_digits s = String.length s.
Proof.
  destruct s as [|c s]; [discriminate|]. unfold is_digit_run. intros H.
  pose proof H as H'. simpl in H'. apply andb_true_iff in H' as [Hc _].
  rewrite (proj2 (unsigned_head c s Hc)). now apply leading_digits_all.
Qed.

(** A digit run denotes an integer that is not negative. *)
Lemma literal_value_digit_run s :
  is_digit_run s = true -> exists z, literal_value s = Some z /\ (0 <= z)%Z.
Proof.
  destruct s as [|c s]; [discriminate|]. unfold is_digit_run. intros H.
  destruct (all_digits_uint_of_string _ H) as [u Hu].
  simpl in H. apply andb_true_iff in H as [Hc _].
  rewrite (proj1 (unsigned_head c s Hc)). unfold NilZero.uint_of_string.
  rewrite Hu. simpl. eexists. split; [reflexivity|].
  unfold Z.of_uint. apply N2Z.is_nonneg.
Qed.

(** [int] accepts a digit run within the limit and refuses a longer one. *)
Lemma py_int_digit_run s :
  is_digit_run s = true -> within_limit s = true ->
  exists z, py_int s = Some z /\ (0 <= z)%Z.
Proof.
  intros Hrun Hlim. unfold py_int. rewrite (scanned_digits_run _ Hrun).
  unfold within_limit in Hlim. apply Nat.leb_le in Hlim.
  destruct (Nat.ltb_spec max_str_digits (String.length s)); [lia|].
  now apply literal_value_digit_run.
Qed.

Lemma py_int_over_limit s :
  is_digit_run s = true -> within_limit s = false -> py_int s = None.
Proof.
  intros Hrun Hlim. unfold py_int. rewrite (scanned_digits_run _ Hrun).
  unfold within_limit in Hlim. apply Nat.leb_gt in Hlim.
  destruct (Nat.ltb_spec max_str_digits (String.length s)); [reflexivity|lia].
Qed.


Lemma string_of_uint_head u :
  u <> Nil ->
  exists c s, NilEmpty.string_of_uint u = String c s /\ is_digit c = true.
Proof.
  destruct u; [congruence| | | | | | | | | |]; intros _; simpl;
    do 2 eexists; (split; [reflexivity|reflexivity]).
Qed.

Lemma all_digits_of_uint u : all_digits (NilEmpty.string_of_uint u) = true.
Proof. induction u; simpl; auto. Qed.

Lemma pos_to_uint_nonnil p : Pos.to_uint p <> Nil.
Proof.
  intros H. pose proof (DecimalPos.Unsigned.of_to p) as E.
  rewrite H in E. discriminate.
Qed.

Lemma decimal_pos p :
  decimal (Z.pos p) = NilEmpty.string_of_uint (Pos.to_uint p).
Proof.
  unfold decimal. simpl. pose proof (pos_to_uint_nonnil p).
  now destruct (Pos.to_uint p).
Qed.

Lemma decimal_neg p : decimal (Z.neg p) = String "-" (decimal (Z.pos p)).
Proof.
  rewrite decimal_pos. unfold decimal. simpl. pose proof (pos_to_uint_nonnil p).
  now destruct (Pos.to_uint p).
Qed.

(** The numeral of an integer that is not negative is a digit run. *)
Lemma decimal_digit_run z : (0 <= z)%Z -> is_digit_run (decimal z) = true.
Proof.
  intros Hz. destruct z as [|p|p]; [reflexivity| |lia].
  rewrite decimal_pos.
  destruct (string_of_uint_head _ (pos_to_uint_nonnil p)) as (c & s & E & _).
  unfold is_digit_run. rewrite <- (all_digits_of_uint (Pos.to_uint p)).
  now rewrite E.
Qed.

Lemma literal_value_of_uint u :
  u <> Nil ->
  literal_value (NilEmpty.string_of_uint u) = Some (Z.of_uint u).
Proof.
  intros Hu. destruct (string_of_uint_head u Hu) as (c & s & E & Hc).
  rewrite E, (proj1 (unsigned_head _ _ Hc)), <- E.
  replace (NilEmpty.string_of_uint u) with (NilZero.string_of_uint u)
    by (now destruct u).
  now rewrite NilZero.usu.
Qed.

(** The numeral of [z] denotes [z]. *)
Lemma literal_value_decimal z : literal_value (decimal z) = Some z.
Proof.
  destruct z as [|p|p].
  - reflexivity.
  - rewrite decimal_pos, (literal_value_of_uint _ (pos_to_uint_nonnil p)).
    f_equal. exact (DecimalZ.of_to (Z.pos p)).
  - rewrite decimal_neg, decimal_pos. simpl.
    replace (NilZero.uint_of_string (NilEmpty.string_of_uint (Pos.to_uint p)))
      with (Some (Pos.to_uint p)).
    + simpl. f_equal. exact (DecimalZ.of_to (Z.neg p)).
    + symmetry. rewrite <- (NilZero.usu _ (pos_to_uint_nonnil p)).
      f_equal. pose proof (pos_to_uint_nonnil p).
      now destruct (Pos.to_uint p).
Qed.

(** [int] scans as many digits of a numeral as [str] counts. *)
Lemma scanned_digits_decimal z : scanned_digits (decimal z) = num_digits z.
Proof.
  unfold num_digits. destruct z as [|p|p].
  - reflexivity.
  - simpl Z.abs. apply scanned_digits_run. now apply decimal_digit_run.
  - simpl Z.abs. rewrite decimal_neg. simpl scanned_digits.
    rewrite <- (scanned_digits_run (decimal (Z.pos p)))
      by now apply decimal_digit_run.
    rewrite decimal_pos.
    destruct (string_of_uint_head _ (pos_to_uint_nonnil p)) as (c & s & E & Hc).
    rewrite E. symmetry. exact (proj2 (unsigned_head c s Hc)).
Qed.

(** [int(str(z)) == z] whenever [str(z)] succeeds. *)
Lemma py_int_str_of_int z s : str_of_int z = Some s -> py_int s = Some z.
Proof.
  unfold str_of_int, py_int.
  destruct (max_str_digits <? num_digits z)%nat eqn:E; [discriminate|].
  intros [= <-]. rewrite scanned_digits_decimal, E.
  apply literal_value_decimal.
Qed.

(** [str(z)] of an integer that is not negative is a digit run. *)
Lemma str_of_int_digit_run z s :
  (0 <= z)%Z -> str_of_int z = Some s -> is_digit_run s = true.
Proof.
  unfold str_of_int. destruct (max_str_digits <? num_digits z)%nat;
    [discriminate|].
  intros Hz [= <-]. now apply decimal_digit_run.
Qed.

End PyStrFacts.

Module StripFacts.
Import PyStr.

Lemma lstrip_spec s :
  exists l, s = l ++ lstrip s /\ all_space l = true
            /\ not_space (head_char (lstrip s)).
Proof.
  induction s as [|c s (l & E & Hl & Hh)]; simpl.
  - exists EmptyString. repeat split.
  - destruct (is_space c) eqn:Hc.
    + exists (String c l). simpl. rewrite Hc, Hl. rewrite <- E. now repeat split.
    + exists EmptyString. simpl. now repeat split.
Qed.

Lemma rstrip_spec s :
  exists t, s = rstrip s ++ t /\ all_space t = true
            /\ not_space (last_char (rstrip s)).
Proof.
  induction s as [|c s (t & E & Ht & Hlast)]; simpl.
  - exists EmptyString. repeat split.
  - destruct (rstrip s) as [|d r] eqn:Hr.
    + simpl in E. destruct (is_space c) eqn:Hc.
      * exists (String c t). simpl. rewrite Hc, Ht.
        split; [congruence|]. now split.
      * exists t. simpl. split; [congruence|]. now split.
    + exists t. split; [simpl in *; congruence|]. split; [assumption|].
      exact Hlast.
Qed.

Lemma rstrip_head s :
  not_space (head_char s) -> not_space (head_char (rstrip s)).
Proof.
  destruct s as [|c s]; simpl; [trivial|]. intros Hc.
  destruct (rstrip s); simpl; [rewrite Hc|]; simpl; assumption.
Qed.

(** [strip] removes a run of whitespace at each end and nothing else, and
    what is left neither starts nor ends with whitespace. *)
Lemma strip_spec s :
  exists l t, s = l ++ strip s ++ t
              /\ all_space l = true /\ all_space t = true
              /\ not_space (head_char (strip s))
              /\ not_space (last_char (strip s)).
Proof.
  unfold strip.
  destruct (lstrip_spec s) as (l & El & Hl & Hh).
  destruct (rstrip_spec (lstrip s)) as (t & Et & Ht & Hlast).
  exists l, t. repeat split; auto.
  - now rewrite <- Et.
  - now apply rstrip_head.
Qed.

End StripFacts.

Module ReFacts.
Import PyStr Re.

Lemma match_literal_app lit r : match_literal lit (lit ++ r) = Some r.
Proof.
  induction lit as [|a lit IH]; simpl; [reflexivity|].
  now rewrite Ascii.eqb_refl.
Qed.

Lemma match_literal_inv lit s r : match_literal lit s = Some r -> s = lit ++ r.
Proof.
  revert s; induction lit as [|a lit IH]; intros [|b s]; simpl;
    try congruence.
  destruct (Ascii.eqb_spec a b); [|discriminate].
  intros H. subst. f_equal. now apply IH.
Qed.

Lemma match_literal_none lit s :
  match_literal lit s = None -> forall r, s <> lit ++ r.
Proof.
  intros H r ->. rewrite match_literal_app in H. discriminate.
Qed.

(** A match of [(\d+)\.] is a digit run, a period, and the rest. *)
Lemma match_digits_dot_spec s g rest :
  match_digits_dot s = Some (g, rest) ->
  s = g ++ String "." rest /\ is_digit_run g = true.
Proof.
  revert g rest; induction s as [|c s IH]; simpl; intros g rest; [discriminate|].
  destruct (is_digit c) eqn:Hc; [|discriminate].
  destruct (match_digits_dot s) as [[ds r]|] eqn:E.
  - intros [= <- <-]. destruct (IH _ _ eq_refl) as [-> Hds].
    split; [reflexivity|]. simpl. rewrite Hc. simpl.
    destruct ds; [discriminate|exact Hds].
  - destruct s as [|d s']; [discriminate|].
    destruct (Ascii.eqb_spec d "."); subst.
    + intros [= <- <-]. simpl. now rewrite Hc.
    + destruct d as [[|] [|] [|] [|] [|] [|] [|] [|]]; try discriminate; congruence.
Qed.

(** Every element of [findall s] is a digit run. *)
Lemma findall_digit_runs s :
  Forall (fun g => is_digit_run g = true) (findall s).
Proof.
  funelim (findall s).
  - constructor.
  - constructor; [|assumption]. exact (proj2 (match_digits_dot_spec _ _ _ e)).
  - assumption.
Qed.

(** The two steps of the scan. *)
Lemma findall_match c s g rest :
  match_digits_dot (String c s) = Some (g, rest) ->
  findall (String c s) = g :: findall rest.
Proof.
  intros E. funelim (findall (String c s)); congruence.
Qed.

Lemma findall_skip c s :
  match_digits_dot (String c s) = None -> findall (String c s) = findall s.
Proof.
  intros E. funelim (findall (String c s)); congruence.
Qed.

Lemma append_assoc (a b c : string) : (a ++ b) ++ c = a ++ (b ++ c).
Proof.
  induction a as [|x a IH]; simpl; [reflexivity|]. now rewrite IH.
Qed.

(** The matcher accepts every digit run that a period follows. *)
Lemma match_digits_dot_complete ds x :
  is_digit_run ds = true ->
  match_digits_dot (ds ++ String "." x) = Some (ds, x).
Proof.
  induction ds as [|c ds IH]; [discriminate|].
  unfold is_digit_run. simpl. intros H.
  apply andb_true_iff in H as [Hc Hds]. rewrite Hc.
  destruct ds as [|d ds].
  - reflexivity.
  - now rewrite (IH Hds).
Qed.

(** The first element of [findall s] is the leftmost token of [s]: no token
    lies in the text before it, and the scan resumes after its period. *)
Lemma findall_first s g l :
  findall s = g :: l ->
  exists pre post,
    s = pre ++ g ++ String "." post /\ findall pre = [] /\ l = findall post.
Proof.
  revert g l. funelim (findall s); intros g0 l0 E.
  - discriminate.
  - injection E as <- <-.
    exists EmptyString, rest. repeat split.
    exact (proj1 (match_digits_dot_spec _ _ _ e)).
  - match goal with
    | IH : forall g l, findall _ = _ -> _ |- _ =>
        destruct (IH _ _ E) as (pre & post & Hs & Hpre & Hl)
    end.
    exists (String c pre), post. subst. repeat split.
    rewrite findall_skip; [assumption|].
    destruct (match_digits_dot (String c pre)) as [[ds r]|] eqn:M;
      [|reflexivity].
    destruct (match_digits_dot_spec _ _ _ M) as [Hsplit Hrun].
    assert (String c (pre ++ g0 ++ String "." post)
            = ds ++ String "." (r ++ g0 ++ String "." post)) as Hlong.
    { change (String c (pre ++ g0 ++ String "." post))
        with (String c pre ++ g0 ++ String "." post).
      rewrite Hsplit. rewrite append_assoc. reflexivity. }
    pose proof e as e'.
    rewrite Hlong, (match_digits_dot_complete _ _ Hrun) in e'. discriminate.
Qed.

Lemma match_lazy_fence_eq s :
  match_lazy_fence s =
  match match_literal "```" s with
  | Some _ => Some EmptyString
  | None =>
      match s with
      | EmptyString => None
      | String c s' => option_map (String c) (match_lazy_fence s')
      end
  end.
Proof. destruct s; reflexivity. Qed.

(** What the lazy star takes is followed by a closing fence. *)
Lemma match_lazy_fence_sound s g :
  match_lazy_fence s = Some g -> exists post, s = g ++ "```" ++ post.
Proof.
  revert g; induction s as [|c s IH]; intros g; rewrite match_lazy_fence_eq.
  - simpl. discriminate.
  - destruct (match_literal "```" (String c s)) as [r|] eqn:E.
    + intros [= <-]. exists r. now apply match_literal_inv in E.
    + destruct (match_lazy_fence s) as [g'|]; [|discriminate].
      intros [= <-]. destruct (IH _ eq_refl) as [post ->]. now exists post.
Qed.

(** The lazy star stops at the first closing fence. *)
Lemma match_lazy_fence_first body post :
  (forall a b, body ++ "```" ++ post = a ++ "```" ++ b ->
               String.length body <= String.length a) ->
  match_lazy_fence (body ++ "```" ++ post) = Some body.
Proof.
  induction body as [|c body IH]; intros Hmin; rewrite match_lazy_fence_eq.
  - change (EmptyString ++ "```" ++ post) with ("```" ++ post).
    now rewrite match_literal_app.
  - destruct (match_literal "```" (String c body ++ "```" ++ post)) as [r|] eqn:E.
    + apply match_literal_inv in E.
      specialize (Hmin EmptyString r E). simpl in Hmin. lia.
    + change (option_map (String c) (match_lazy_fence (body ++ "```" ++ post))
              = Some (String c body)).
      rewrite IH; [reflexivity|].
      intros a b Hab.
      assert (String c body ++ "```" ++ post = String c a ++ "```" ++ b) as Hc
        by (simpl; f_equal; exact Hab).
      apply Hmin in Hc. simpl in Hc. lia.
Qed.

Lemma search_sql_eq s :
  search_sql s =
  match match_sql_block s with
  | Some g => Some g
  | None =>
      match s with
      | EmptyString => None
      | String _ s' => search_sql s'
      end
  end.
Proof. destruct s; reflexivity. Qed.

(** A successful search has found a fenced block around its group. *)
Lemma search_sql_sound s g :
  search_sql s = Some g ->
  exists pre post, s = pre ++ "```sql" ++ g ++ "```" ++ post.
Proof.
  revert g; induction s as [|c s IH]; intros g; rewrite search_sql_eq;
    unfold match_sql_block.
  - simpl. discriminate.
  - destruct (match_literal "```sql" (String c s)) as [after|] eqn:E.
    + apply match_literal_inv in E.
      destruct (match_lazy_fence after) as [g'|] eqn:El.
      * intros [= <-]. destruct (match_lazy_fence_sound _ _ El) as [post ->].
        exists EmptyString, post. exact E.
      * intros H. destruct (IH _ H) as (pre & post & ->).
        now exists (String c pre), post.
    + intros H. destruct (IH _ H) as (pre & post & ->).
      now exists (String c pre), post.
Qed.

(** Without a fenced block the search fails. *)
Lemma search_sql_none s :
  (forall pre body post, s <> pre ++ "```sql" ++ body ++ "```" ++ post) ->
  search_sql s = None.
Proof.
  intros H. destruct (search_sql s) as [g|] eqn:E; [|reflexivity].
  destruct (search_sql_sound _ _ E) as (pre & post & Hs). now apply H in Hs.
Qed.

(** The search returns the content between the first opening fence and the
    first closing fence after it. *)
Lemma search_sql_first pre body post :
  (forall a b, pre ++ "```sql" ++ body ++ "```" ++ post = a ++ "```sql" ++ b ->
               String.length pre <= String.length a) ->
  (forall a b, body ++ "```" ++ post = a ++ "```" ++ b ->
               String.length body <= String.length a) ->
  search_sql (pre ++ "```sql" ++ body ++ "```" ++ post) = Some body.
Proof.
  intros Hpre Hbody. induction pre as [|c pre IH]; rewrite search_sql_eq;
    unfold match_sql_block.
  - change (EmptyString ++ "```sql" ++ body ++ "```" ++ post)
      with ("```sql" ++ (body ++ "```" ++ post)).
    rewrite match_literal_app. now rewrite match_lazy_fence_first.
  - destruct (match_literal "```sql"
                (String c pre ++ "```sql" ++ body ++ "```" ++ post))
      as [r|] eqn:E.
    + apply match_literal_inv in E.
      specialize (Hpre EmptyString r E). simpl in Hpre. lia.
    + change (search_sql (pre ++ "```sql" ++ body ++ "```" ++ post) = Some body).
      apply IH. intros a b Hab.
      assert (String c pre ++ "```sql" ++ body ++ "```" ++ post
              = String c a ++ "```sql" ++ b) as Hc
        by (simpl; f_equal; exact Hab).
      apply Hpre in Hc. simpl in Hc. lia.
Qed.

Lemma match_lazy_fence_complete body post :
  match_lazy_fence (body ++ "```" ++ post) <> None.
Proof.
  induction body as [|c body IH]; rewrite match_lazy_fence_eq.
  - change (EmptyString ++ "```" ++ post) with ("```" ++ post).
    now rewrite match_literal_app.
  - destruct (match_literal "```" (String c body ++ "```" ++ post));
      [discriminate|].
    change (option_map (String c) (match_lazy_fence (body ++ "```" ++ post))
            <> None).
    destruct (match_lazy_fence (body ++ "```" ++ post)); [discriminate|].
    now elim IH.
Qed.

(** A fenced block anywhere in the text makes the search succeed. *)
Lemma search_sql_complete pre body post :
  search_sql (pre ++ "```sql" ++ body ++ "```" ++ post) <> None.
Proof.
  induction pre as [|c pre IH]; rewrite search_sql_eq; unfold match_sql_block.
  - change (EmptyString ++ "```sql" ++ body ++ "```" ++ post)
      with ("```sql" ++ (body ++ "```" ++ post)).
    rewrite match_literal_app.
    pose proof (match_lazy_fence_complete body post) as H.
    destruct (match_lazy_fence (body ++ "```" ++ post)); [discriminate|].
    now elim H.
  - destruct (match_literal "```sql"
                (String c pre ++ "```sql" ++ body ++ "```" ++ post))
      as [after|]; [destruct (match_lazy_fence after); [discriminate|]|];
      exact IH.
Qed.

Lemma search_sql_none_inv s :
  search_sql s = None ->
  forall pre body post, s <> pre ++ "```sql" ++ body ++ "```" ++ post.
Proof.
  intros H pre body post ->. now apply search_sql_complete in H.
Qed.

End ReFacts.

(** ** Facts about dictionaries and the effects *)

Lemma contains_spec n d :
  contains n d = true <-> exists k, In k (keys d) /\ eq_int n k = true.
Proof. unfold contains. apply existsb_exists. Qed.

Lemma contains_int_key n d : In (PInt n) (keys d) -> contains n d = true.
Proof.
  intros Hin. apply contains_spec. exists (PInt n). split; [assumption|].
  apply Z.eqb_refl.
Qed.

Lemma int_keyed_In d k :
  int_keyed d -> In k (keys d) -> exists z, k = PInt z.
Proof.
  unfold int_keyed. rewrite forallb_forall. intros H Hin.
  specialize (H _ Hin). destruct k as [z|s|o t]; [now exists z|discriminate..].
Qed.

Lemma contains_int_keyed n d :
  int_keyed d -> contains n d = true -> In (PInt n) (keys d).
Proof.
  intros Hd H. apply contains_spec in H as (k & Hin & E).
  destruct (int_keyed_In _ _ Hd Hin) as [z ->]. simpl in E.
  apply Z.eqb_eq in E. now subst.
Qed.

Lemma str_keyed_no_int d z : str_keyed d -> contains z d = false.
Proof.
  unfold str_keyed. rewrite forallb_forall. intros H.
  destruct (contains z d) eqn:E; [|reflexivity].
  apply contains_spec in E as (k & Hin & E). apply H in Hin.
  destruct k; simpl in *; discriminate.
Qed.

Lemma keys_have_str_In d k :
  keys_have_str d -> In k (keys d) -> exists s, py_str k = Some s.
Proof.
  unfold keys_have_str. rewrite forallb_forall. intros H Hin.
  specialize (H _ Hin). unfold has_str in H.
  destruct (py_str k) as [s|]; [now exists s|discriminate].
Qed.

(** The string of a key of a LabelSet encodes a key of the LabelSet. *)
Lemma is_label_key_str d k s :
  int_keyed d -> In k (keys d) -> py_str k = Some s ->
  is_label_key d s = true.
Proof.
  intros Hd Hin Hs. destruct (int_keyed_In _ _ Hd Hin) as [z ->].
  unfold is_label_key. simpl in Hs.
  rewrite (PyStrFacts.py_int_str_of_int _ _ Hs).
  now apply contains_int_key.
Qed.

Lemma counter_randbelow_ok : randbelow_ok counter_randbelow.
Proof.
  intros g n Hn. simpl. apply Nat.mod_upper_bound. lia.
Qed.

(** ** The branches of [extract_label] *)

Section ExtractLabelBranches.

Context {G : Type}.
Variable randbelow : G -> nat -> nat * G.

(** A draw from a non-empty list returns one of its elements. *)
Lemma random_choice_ok {A} (seq : list A) (w : world G) :
  randbelow_ok randbelow -> seq <> [] ->
  exists x,
    nth_error seq (fst (randbelow (rng w) (length seq))) = Some x
    /\ random_choice randbelow seq w
       = (Ret x, World (snd (randbelow (rng w) (length seq))) (stdout w)).
Proof.
  intros Hok Hne. destruct seq as [|a seq]; [congruence|].
  unfold random_choice.
  assert (fst (randbelow (rng w) (length (a :: seq))) < length (a :: seq))
    as Hlt by (apply Hok; simpl; lia).
  destruct (randbelow (rng w) (length (a :: seq))) as [i g'] eqn:E.
  simpl fst in *. simpl snd.
  destruct (nth_error (a :: seq) i) as [x|] eqn:Hn.
  - now exists x.
  - apply nth_error_None in Hn. lia.
Qed.

(** The fallback of a non-empty dictionary prints, draws a key and takes
    its string. *)
Lemma fallback_ok (m : message) (d : dict) (w : world G) :
  randbelow_ok randbelow -> d <> [] ->
  exists k,
    nth_error (keys d) (fst (randbelow (rng w) (length (keys d)))) = Some k
    /\ fallback randbelow m d w
       = str_ k (World (snd (randbelow (rng w) (length (keys d))))
                       (stdout w ++ [m])).
Proof.
  intros Hok Hne.
  assert (keys d <> []) as Hk by (destruct d; [congruence|discriminate]).
  destruct (random_choice_ok (keys d) (World (rng w) (stdout w ++ [m])) Hok Hk)
    as (k & Hn & E).
  exists k. split; [exact Hn|].
  unfold fallback, bind, print. simpl in E. now rewrite E.
Qed.

Lemma str_some k s (w : world G) : py_str k = Some s -> str_ k w = (Ret s, w).
Proof. unfold str_. now intros ->. Qed.

(** No match: fallback. *)
Lemma extract_label_none text d w :
  Re.findall text = [] ->
  extract_label randbelow text d w = fallback randbelow (NoNumbers text) d w.
Proof.
  intros H. unfold extract_label, fallback. rewrite H. simpl.
  unfold bind. simpl. now destruct (random_choice _ _ _) as [[k|e] w'].
Qed.

(** One match whose integer equals a key: the match itself, no effect. *)
Lemma extract_label_valid text d w tok n :
  Re.findall text = [tok] -> PyStr.py_int tok = Some n ->
  contains n d = true ->
  extract_label randbelow text d w = (Ret tok, w).
Proof.
  intros H Hn Hc. unfold extract_label, int_. rewrite H. simpl.
  unfold bind. simpl. rewrite Hn. simpl. now rewrite Hc.
Qed.

(** One match whose integer equals no key: fallback. *)
Lemma extract_label_invalid text d w tok n :
  Re.findall text = [tok] -> PyStr.py_int tok = Some n ->
  contains n d = false ->
  extract_label randbelow text d w = fallback randbelow (NotInLabelSet text) d w.
Proof.
  intros H Hn Hc. unfold extract_label, fallback, int_. rewrite H. simpl.
  unfold bind. simpl. rewrite Hn. simpl. rewrite Hc. simpl.
  now destruct (random_choice _ _ _) as [[k|e] w'].
Qed.

(** The tokens of a text are digit runs. *)
Lemma single_match_run text tok :
  Re.findall text = [tok] -> is_digit_run tok = true.
Proof.
  intros H. pose proof (ReFacts.findall_digit_runs text) as F.
  rewrite H in F. now inversion F.
Qed.

(** One match that [int] refuses: the [ValueError] of the limit, before the
    dictionary is looked at. *)
Lemma extract_label_over_limit text d w tok :
  Re.findall text = [tok] -> within_limit tok = false ->
  extract_label randbelow text d w
  = (Raise (ValueError (PyStr.exceeds_limit_int (String.length tok))), w).
Proof.
  intros H Hlim. pose proof (single_match_run _ _ H) as Hrun.
  unfold extract_label, int_. rewrite H. simpl. unfold bind. simpl.
  rewrite (PyStrFacts.py_int_over_limit _ Hrun Hlim).
  rewrite (PyStrFacts.scanned_digits_run _ Hrun).
  unfold within_limit in Hlim. apply Nat.leb_gt in Hlim.
  destruct (Nat.ltb_spec PyStr.max_str_digits (String.length tok)); [|lia].
  reflexivity.
Qed.

(** Several matches: the first one, with a warning. *)
Lemma extract_label_several text d w t1 t2 rest :
  Re.findall text = t1 :: t2 :: rest ->
  extract_label randbelow text d w
  = (Ret t1, World (rng w) (stdout w ++ [NotExactlyOne (t1 :: t2 :: rest)])).
Proof.
  intros H. unfold extract_label. rewrite H. reflexivity.
Qed.

(** A single match within the limit has an integer value. *)
Lemma single_match_int text tok :
  Re.findall text = [tok] -> within_limit tok = true ->
  exists n, PyStr.py_int tok = Some n.
Proof.
  intros H Hlim.
  destruct (PyStrFacts.py_int_digit_run _ (single_match_run _ _ H) Hlim)
    as (n & Hn & _).
  now exists n.
Qed.

End ExtractLabelBranches.

(** ** When a token is the string of its value *)

Module CanonicalFacts.
Import PyStr PyStrFacts.







End CanonicalFacts.

(** ** Classification: what [extract_label] returns *)

Section ExtractLabel.

Context {G : Type}.
Variable randbelow : G -> nat -> nat * G.

Lemma fallback_stdout m d (w : world G) :
  stdout (snd (fallback randbelow m d w)) = (stdout w ++ [m])%list.
Proof.
  unfold fallback, bind, print, random_choice, str_. simpl.
  destruct (keys d) as [|k ks]; [reflexivity|].
  destruct (randbelow (rng w) (length (k :: ks))) as [i g'].
  destruct (nth_error (k :: ks) i) as [x|]; [|reflexivity].
  now destruct (py_str x).
Qed.

Lemma fallback_fst_rng m d (w1 w2 : world G) :
  rng w1 = rng w2 ->
  fst (fallback randbelow m d w1) = fst (fallback randbelow m d w2).
Proof.
  intros E. unfold fallback, bind, print, random_choice, str_. simpl. rewrite E.
  destruct (keys d) as [|k ks]; [reflexivity|].
  destruct (randbelow (rng w2) (length (k :: ks))) as [i g'].
  destruct (nth_error (k :: ks) i) as [x|]; [|reflexivity].
  now destruct (py_str x).
Qed.

(** The fallback of a non-empty dictionary whose keys all have a string
    returns the string of the key it draws. *)
Lemma fallback_key m d (w : world G) :
  randbelow_ok randbelow -> d <> [] -> keys_have_str d ->
  exists k s,
    nth_error (keys d) (fst (randbelow (rng w) (length (keys d)))) = Some k
    /\ In k (keys d) /\ py_str k = Some s
    /\ fallback randbelow m d w
       = (Ret s, World (snd (randbelow (rng w) (length (keys d))))
                       (stdout w ++ [m])).
Proof.
  intros Hok Hne Hstr.
  destruct (fallback_ok randbelow m d w Hok Hne) as (k & Hk & E).
  assert (In k (keys d)) as Hin by (eapply nth_error_In; eassumption).
  destruct (keys_have_str_In _ _ Hstr Hin) as [s Hs].
  exists k, s. repeat split; auto.
  rewrite E. now apply str_some.
Qed.

(** C1, as amended.  For a non-empty LabelSet whose keys have at most
    [max_str_digits] digits, and a text with at most one [<digits>.] token,
    itself of at most [max_str_digits] digits, [extract_label] returns a
    string that encodes a key of the LabelSet: it never raises and never
    leaves the key set. *)
Theorem extract_label_member_at_most_one text d w :
  randbelow_ok randbelow -> d <> [] -> int_keyed d -> keys_have_str d ->
  length (Re.findall text) <= 1 ->
  forallb within_limit (Re.findall text) = true ->
  exists r w',
    extract_label randbelow text d w = (Ret r, w')
    /\ is_label_key d r = true.
Proof.
  intros Hok Hne Hint Hstr Hlen Hlim.
  destruct (Re.findall text) as [|tok [|t2 rest]] eqn:F.
  - rewrite (extract_label_none _ _ _ _ F).
    destruct (fallback_key (NoNumbers text) d w Hok Hne Hstr)
      as (k & s & _ & Hin & Hs & ->).
    do 2 eexists. split; [reflexivity|].
    now apply (is_label_key_str d k).
  - simpl in Hlim. apply andb_true_iff in Hlim as [Hlim _].
    destruct (single_match_int _ _ F Hlim) as [n Hn].
    destruct (contains n d) eqn:C.
    + rewrite (extract_label_valid _ _ _ _ _ _ F Hn C).
      do 2 eexists. split; [reflexivity|].
      unfold is_label_key. now rewrite Hn.
    + rewrite (extract_label_invalid _ _ _ _ _ _ F Hn C).
      destruct (fallback_key (NotInLabelSet text) d w Hok Hne Hstr)
        as (k & s & _ & Hin & Hs & ->).
      do 2 eexists. split; [reflexivity|].
      now apply (is_label_key_str d k).
  - simpl in Hlen. lia.
Qed.



(** C4, as amended.  For a non-empty LabelSet whose keys have at most
    [max_str_digits] digits, and a text with no [<digits>.] token, or with
    exactly one, of at most [max_str_digits] digits, whose integer value is
    not a key, [extract_label] returns the string of the key that
    [random.choice] draws from the LabelSet's keys: a member of the key set,
    and never the invalid token. *)
Theorem extract_label_fallback_member text d w :
  randbelow_ok randbelow -> d <> [] -> int_keyed d -> keys_have_str d ->
  (Re.findall text = []
   \/ exists tok, Re.findall text = [tok] /\ within_limit tok = true
                  /\ is_label_key d tok = false) ->
  exists k s m,
    nth_error (keys d) (fst (randbelow (rng w) (length (keys d)))) = Some k
    /\ In k (keys d) /\ py_str k = Some s
    /\ extract_label randbelow text d w
       = (Ret s,
          World (snd (randbelow (rng w) (length (keys d)))) (stdout w ++ [m]))
    /\ is_label_key d s = true
    /\ (forall tok, Re.findall text = [tok] -> s <> tok).
Proof.
  intros Hok Hne Hint Hstr [F | (tok & F & Hlim & Hout)].
  - destruct (fallback_key (NoNumbers text) d w Hok Hne Hstr)
      as (k & s & Hk & Hin & Hs & E).
    exists k, s, (NoNumbers text). repeat split; auto.
    + now rewrite (extract_label_none _ _ _ _ F).
    + now apply (is_label_key_str d k).
    + intros tok F'. rewrite F in F'. discriminate.
  - destruct (single_match_int _ _ F Hlim) as [n Hn].
    assert (contains n d = false) as C
      by (unfold is_label_key in Hout; now rewrite Hn in Hout).
    destruct (fallback_key (NotInLabelSet text) d w Hok Hne Hstr)
      as (k & s & Hk & Hin & Hs & E).
    assert (is_label_key d s = true) as Hmem
      by now apply (is_label_key_str d k).
    exists k, s, (NotInLabelSet text). repeat split; auto.
    + now rewrite (extract_label_invalid _ _ _ _ _ _ F Hn C).
    + intros tok' F' Heq. rewrite F in F'. injection F' as <-.
      rewrite Heq in Hmem. congruence.
Qed.

(** C7, as amended.  The result of [extract_label] is a function of the
    text, the dictionary and the state of the random source; when the text
    has several tokens, or one token that encodes a key, the result does not
    depend on the random source, which is left as it was. *)
Theorem extract_label_deterministic_part text d :
  (forall w1 w2 : world G,
      rng w1 = rng w2 ->
      fst (extract_label randbelow text d w1)
      = fst (extract_label randbelow text d w2))
  /\ (2 <= length (Re.findall text)
      \/ (exists tok, Re.findall text = [tok] /\ is_label_key d tok = true) ->
      forall w1 w2 : world G,
        fst (extract_label randbelow text d w1)
        = fst (extract_label randbelow text d w2)
        /\ rng (snd (extract_label randbelow text d w1)) = rng w1).
Proof.
  split.
  - intros w1 w2 E.
    destruct (Re.findall text) as [|tok [|t2 rest]] eqn:F.
    + rewrite !(extract_label_none _ _ _ _ F). now apply fallback_fst_rng.
    + destruct (within_limit tok) eqn:Hlim.
      * destruct (single_match_int _ _ F Hlim) as [n Hn].
        destruct (contains n d) eqn:C.
        -- now rewrite !(extract_label_valid _ _ _ _ _ _ F Hn C).
        -- rewrite !(extract_label_invalid _ _ _ _ _ _ F Hn C).
           now apply fallback_fst_rng.
      * now rewrite !(extract_label_over_limit _ _ _ _ _ F Hlim).
    + now rewrite !(extract_label_several _ _ _ _ _ _ _ F).
  - intros [Hlen | (tok & F & Hkey)] w1 w2.
    + destruct (Re.findall text) as [|t1 [|t2 rest]] eqn:F;
        [simpl in Hlen; lia | simpl in Hlen; lia |].
      now rewrite !(extract_label_several _ _ _ _ _ _ _ F).
    + unfold is_label_key in Hkey.
      destruct (PyStr.py_int tok) as [n|] eqn:Hn; [|discriminate].
      now rewrite !(extract_label_valid _ _ _ _ _ _ F Hn Hkey).
Qed.

(** C8, as amended.  For a non-empty dictionary whose integer keys have at
    most [max_str_digits] digits, and a text whose only token, if it has
    exactly one, has at most [max_str_digits] digits, [extract_label]
    returns a string: no path raises. *)
Theorem extract_label_total text d w :
  randbelow_ok randbelow -> d <> [] -> keys_have_str d ->
  (forall tok, Re.findall text = [tok] -> within_limit tok = true) ->
  exists (r : string) (w' : world G),
    extract_label randbelow text d w = (Ret r, w').
Proof.
  intros Hok Hne Hstr Hlim.
  destruct (Re.findall text) as [|tok [|t2 rest]] eqn:F.
  - rewrite (extract_label_none _ _ _ _ F).
    destruct (fallback_key (NoNumbers text) d w Hok Hne Hstr)
      as (k & s & _ & _ & _ & ->).
    eauto.
  - destruct (single_match_int _ _ F (Hlim _ eq_refl)) as [n Hn].
    destruct (contains n d) eqn:C.
    + rewrite (extract_label_valid _ _ _ _ _ _ F Hn C). eauto.
    + rewrite (extract_label_invalid _ _ _ _ _ _ F Hn C).
      destruct (fallback_key (NotInLabelSet text) d w Hok Hne Hstr)
        as (k & s & _ & _ & _ & ->).
      eauto.
  - rewrite (extract_label_several _ _ _ _ _ _ _ F). eauto.
Qed.

(** C10, as amended.  With exactly one [<digits>.] token in the text:
    a token of more than [max_str_digits] digits makes [int(number)] raise
    [ValueError] before the dictionary is looked at; otherwise a dictionary
    whose keys are all strings sends [extract_label] to the random fallback;
    and the token is returned as validated exactly when some key of the
    dictionary equals its integer value, be it an [int] or a value of
    another type that equals that integer. *)
Theorem extract_label_needs_int_keys text d tok w :
  Re.findall text = [tok] ->
  (within_limit tok = false ->
   extract_label randbelow text d w
   = (Raise (ValueError (PyStr.exceeds_limit_int (String.length tok))), w))
  /\ (within_limit tok = true -> str_keyed d ->
      extract_label randbelow text d w
      = fallback randbelow (NotInLabelSet text) d w)
  /\ (extract_label randbelow text d w = (Ret tok, w)
      <-> exists z k, PyStr.py_int tok = Some z /\ In k (keys d)
                      /\ eq_int z k = true).
Proof.
  intros F. split; [|split].
  - now apply extract_label_over_limit.
  - intros Hlim Hstr. destruct (single_match_int _ _ F Hlim) as [n Hn].
    apply (extract_label_invalid _ _ _ _ _ n F Hn).
    now apply str_keyed_no_int.
  - split.
    + intros E. destruct (within_limit tok) eqn:Hlim.
      * destruct (single_match_int _ _ F Hlim) as [n Hn].
        exists n. destruct (contains n d) eqn:C.
        -- apply contains_spec in C as (k & Hin & Hk). now exists k.
        -- rewrite (extract_label_invalid _ _ _ _ _ _ F Hn C) in E.
           pose proof (fallback_stdout (NotInLabelSet text) d w) as S.
           rewrite E in S. simpl in S.
           apply (f_equal (@length message)) in S. rewrite length_app in S.
           simpl in S. lia.
      * rewrite (extract_label_over_limit _ _ _ _ _ F Hlim) in E.
        discriminate.
    + intros (z & k & Hz & Hin & Hk).
      apply (extract_label_valid _ _ _ _ _ z F Hz).
      apply contains_spec. now exists k.
Qed.

End ExtractLabel.

(** ** SQL generation: what [parse_sql] returns *)

Section ParseSql.

Context {G : Type}.

(** C5.  When the text holds a block between an opening [```sql] fence and
    a closing fence, [parse_sql] returns the content between the first
    opening fence and the first closing fence after it, with the whitespace
    at both ends removed and nothing else changed; it prints nothing. *)
Theorem parse_sql_first_block pre body post (w : world G) :
  (forall a b, pre ++ "```sql" ++ body ++ "```" ++ post = a ++ "```sql" ++ b ->
               String.length pre <= String.length a) ->
  (forall a b, body ++ "```" ++ post = a ++ "```" ++ b ->
               String.length body <= String.length a) ->
  parse_sql (pre ++ "```sql" ++ body ++ "```" ++ post) w
  = (Ret (PyStr.strip body), w)
  /\ exists l t,
       body = l ++ PyStr.strip body ++ t
       /\ all_space l = true /\ all_space t = true
       /\ not_space (head_char (PyStr.strip body))
       /\ not_space (last_char (PyStr.strip body)).
Proof.
  intros Hpre Hbody. split.
  - unfold parse_sql. now rewrite (ReFacts.search_sql_first _ _ _ Hpre Hbody).
  - apply StripFacts.strip_spec.
Qed.

(** C6.  When the text holds no block between an opening [```sql] fence and
    a closing fence, [parse_sql] returns the text as it is and prints the
    warning. *)
Theorem parse_sql_no_block text (w : world G) :
  (forall pre body post, text <> pre ++ "```sql" ++ body ++ "```" ++ post) ->
  parse_sql text w = (Ret text, World (rng w) (stdout w ++ [NoSQLFound])).
Proof.
  intros H. unfold parse_sql. now rewrite (ReFacts.search_sql_none _ H).
Qed.

End ParseSql.

(** ** Dispatch on the benchmark name *)

Lemma startswith_inv s p :
  PyStr.startswith s p = true -> exists r, s = p ++ r.
Proof.
  revert s; induction p as [|a p IH]; intros s; simpl.
  - intros _. now exists s.
  - destruct s as [|b s]; [intros H; discriminate H|].
    intros H. apply andb_true_iff in H as [Hab Hs].
    apply Ascii.eqb_eq in Hab. destruct (IH _ Hs) as [r ->]. subst.
    now exists r.
Qed.

(** C9.  A benchmark name that starts with [classification] selects a
    budget of 32 tokens and the classification agent; one that starts with
    [sql_generation] selects 512 tokens and the SQL agent; any other name
    raises [ValueError]. *)
Theorem select_agent_dispatch :
  (forall r, select_agent ("classification" ++ r) = Ret (32%Z, ClassificationAgent))
  /\ (forall r, select_agent ("sql_generation" ++ r) = Ret (512%Z, SQLGenerationAgent))
  /\ (forall name,
        (forall r, name <> "classification" ++ r) ->
        (forall r, name <> "sql_generation" ++ r) ->
        select_agent name = Raise (ValueError ("Invalid benchmark name: " ++ name))).
Proof.
  split; [|split].
  - intros r. reflexivity.
  - intros r. reflexivity.
  - intros name Hc Hs. unfold select_agent.
    destruct (PyStr.startswith name "classification") eqn:Ec.
    + apply startswith_inv in Ec as [r E]. now apply Hc in E.
    + destruct (PyStr.startswith name "sql_generation") eqn:Es; [|reflexivity].
      apply startswith_inv in Es as [r E]. now apply Hs in E.
Qed.

(** ** The documented examples, run *)

(** [{1: "flu", 2: "cold"}] and ["2. cold"] give ["2"]. *)
Example extract_label_end_to_end :
  extract_label counter_randbelow "2. cold" flu_cold (World 0 [])
  = (Ret "2", World 0 []).
Proof. reflexivity. Qed.

(** A digit run with leading zeros is returned as it is written. *)
Example extract_label_leading_zero :
  extract_label counter_randbelow "01. flu" flu_cold (World 0 [])
  = (Ret "01", World 0 []).
Proof. reflexivity. Qed.

(** With string keys the same response is not recognised. *)
Example extract_label_string_keys :
  extract_label counter_randbelow "2. cold" flu_cold_str (World 0 [])
  = (Ret "1", World 1 [NotInLabelSet "2. cold"]).
Proof. reflexivity. Qed.

(** ** A token and a key beyond the digit limit *)

(** The scan takes a run of 4301 digits as one token. *)
Lemma long_token_scan : Re.findall long_token_text = [nines 4301].
Proof. vm_compute. reflexivity. Qed.

(** [int] refuses it, whatever the dictionary and the world. *)
Lemma long_token_raises {G : Type} (randbelow : G -> nat -> nat * G) d w :
  extract_label randbelow long_token_text d w
  = (Raise (ValueError (PyStr.exceeds_limit_int 4301)), w).
Proof.
  assert (within_limit (nines 4301) = false) as Hlim by (vm_compute; reflexivity).
  assert (String.length (nines 4301) = 4301) as Hlen by (vm_compute; reflexivity).
  rewrite (extract_label_over_limit randbelow _ d w _ long_token_scan Hlim).
  now rewrite Hlen.
Qed.

(** [str] refuses the smallest integer of 4301 digits. *)
Lemma huge_key_no_str : py_str (PInt huge_key) = None.
Proof. vm_compute. reflexivity. Qed.

(** So the fallback of a LabelSet that has only this key raises. *)
Lemma huge_key_raises :
  extract_label counter_randbelow "no number" flu_huge (World 0 [])
  = (Raise (ValueError PyStr.exceeds_limit_str), World 1 [NoNumbers "no number"]).
Proof.
  rewrite (extract_label_none counter_randbelow "no number" flu_huge (World 0 []) eq_refl).
  unfold fallback, bind, print, str_, flu_huge.
  cbv [random_choice keys map fst length counter_randbelow rng stdout nth_error
       Nat.modulo Nat.divmod snd Nat.sub app].
  now rewrite huge_key_no_str.
Qed.

(** ** Counterexamples *)

(** C1 fails as stated.  With several tokens the first digit run is
    returned although it encodes no key of the LabelSet; with the empty
    LabelSet the fallback raises [IndexError], so nothing is returned; a
    single token of 4301 digits makes [int] raise [ValueError]; and so does
    [str] on a key of 4301 digits that the fallback draws. *)
Lemma extract_label_out_of_set :
  extract_label counter_randbelow "3. migraine or 1. flu" flu_cold (World 0 [])
  = (Ret "3", World 0 [NotExactlyOne ["3"; "1"]])
  /\ is_label_key flu_cold "3" = false
  /\ extract_label counter_randbelow "no number" [] (World 0 [])
     = (Raise IndexError, World 0 [NoNumbers "no number"])
  /\ extract_label counter_randbelow long_token_text flu_cold (World 0 [])
     = (Raise (ValueError (PyStr.exceeds_limit_int 4301)), World 0 [])
  /\ extract_label counter_randbelow "no number" flu_huge (World 0 [])
     = (Raise (ValueError PyStr.exceeds_limit_str),
        World 1 [NoNumbers "no number"]).
Proof.
  split; [reflexivity|]. split; [reflexivity|]. split; [reflexivity|].
  split; [apply long_token_raises | exact huge_key_raises].
Qed.


(** C4 fails as stated.  The only token of the text has 4301 digits; its
    integer value is not a key of [{1, 2}], and [extract_label] does not
    fall back: [int] raises [ValueError].  And when the fallback draws a key
    of 4301 digits, [str] raises. *)
Lemma extract_label_no_fallback_over_limit :
  Re.findall long_token_text = [nines 4301]
  /\ PyStr.literal_value (nines 4301) <> Some 1%Z
  /\ PyStr.literal_value (nines 4301) <> Some 2%Z
  /\ extract_label counter_randbelow long_token_text flu_cold (World 0 [])
     = (Raise (ValueError (PyStr.exceeds_limit_int 4301)), World 0 [])
  /\ extract_label counter_randbelow "no number" flu_huge (World 0 [])
     = (Raise (ValueError PyStr.exceeds_limit_str),
        World 1 [NoNumbers "no number"]).
Proof.
  split; [exact long_token_scan|].
  split; [vm_compute; discriminate|]. split; [vm_compute; discriminate|].
  split; [apply long_token_raises | exact huge_key_raises].
Qed.

(** C7 fails as stated.  Two runs in a row on the same text and LabelSet,
    the second from the world the first one leaves, return different keys
    when the text has no token, and also when its only token is out of set. *)
Lemma extract_label_two_runs_differ :
  (let run1 := extract_label counter_randbelow "no number" flu_cold (World 0 []) in
   let run2 := extract_label counter_randbelow "no number" flu_cold (snd run1) in
   fst run1 = Ret "1" /\ fst run2 = Ret "2")
  /\ (let run1 := extract_label counter_randbelow "3. migraine" flu_cold (World 0 []) in
      let run2 := extract_label counter_randbelow "3. migraine" flu_cold (snd run1) in
      fst run1 = Ret "1" /\ fst run2 = Ret "2").
Proof. repeat split. Qed.

(** C8 fails as stated.  On a text whose only token has 4301 digits
    [extract_label] raises [ValueError] at [int(number)], with integer keys
    and with string keys alike; and with a key of 4301 digits it raises at
    [str(prediction)]. *)
Lemma extract_label_raises_value_error :
  extract_label counter_randbelow long_token_text flu_cold (World 0 [])
  = (Raise (ValueError (PyStr.exceeds_limit_int 4301)), World 0 [])
  /\ extract_label counter_randbelow long_token_text flu_cold_str (World 0 [])
     = (Raise (ValueError (PyStr.exceeds_limit_int 4301)), World 0 [])
  /\ flu_huge <> []
  /\ extract_label counter_randbelow "no number" flu_huge (World 0 [])
     = (Raise (ValueError PyStr.exceeds_limit_str),
        World 1 [NoNumbers "no number"]).
Proof.
  split; [apply long_token_raises|]. split; [apply long_token_raises|].
  split; [discriminate | exact huge_key_raises].
Qed.

(** C10 fails as stated.  With string keys and a single token of 4301
    digits [extract_label] does not reach the fallback: it raises
    [ValueError], where the fallback would have returned a key.  And the
    validated return does not need an integer key: the key [1.0] equals the
    integer 1, so ["1. flu"] is returned as validated. *)
Lemma extract_label_string_keys_no_fallback :
  str_keyed flu_cold_str
  /\ Re.findall long_token_text = [nines 4301]
  /\ extract_label counter_randbelow long_token_text flu_cold_str (World 0 [])
     = (Raise (ValueError (PyStr.exceeds_limit_int 4301)), World 0 [])
  /\ fallback counter_randbelow (NotInLabelSet long_token_text) flu_cold_str
       (World 0 [])
     = (Ret "1", World 1 [NotInLabelSet long_token_text])
  /\ forallb is_int_key (keys flu_float) = false
  /\ extract_label counter_randbelow "1. flu" flu_float (World 0 [])
     = (Ret "1", World 0 []).
Proof.
  split; [reflexivity|]. split; [exact long_token_scan|].
  split; [apply long_token_raises|].
  split; [reflexivity|]. split; reflexivity.
Qed.

(** ** The theorems at concrete inputs *)

Lemma extract_label_member_at_most_one_witness :
  randbelow_ok counter_randbelow /\ flu_cold <> [] /\ int_keyed flu_cold
  /\ keys_have_str flu_cold
  /\ length (Re.findall "7. unknown") <= 1
  /\ forallb within_limit (Re.findall "7. unknown") = true
  /\ exists r w',
       extract_label counter_randbelow "7. unknown" flu_cold (World 0 []) = (Ret r, w')
       /\ is_label_key flu_cold r = true.
Proof.
  assert (length (Re.findall "7. unknown") <= 1) as Hlen by (vm_compute; lia).
  assert (forallb within_limit (Re.findall "7. unknown") = true) as Hlim
    by reflexivity.
  assert (flu_cold <> []) as Hne by discriminate.
  assert (int_keyed flu_cold) as Hint by reflexivity.
  assert (keys_have_str flu_cold) as Hstr by reflexivity.
  repeat (split; [assumption || exact counter_randbelow_ok|]).
  exact (extract_label_member_at_most_one counter_randbelow "7. unknown"
           flu_cold (World 0 []) counter_randbelow_ok Hne Hint Hstr Hlen Hlim).
Defined.



Lemma extract_label_fallback_member_witness :
  exists k s m,
    nth_error (keys flu_cold) 1 = Some k
    /\ In k (keys flu_cold) /\ py_str k = Some s
    /\ extract_label counter_randbelow "7. unknown" flu_cold (World 1 [])
       = (Ret s, World 2 [m])
    /\ is_label_key flu_cold s = true
    /\ (forall tok, Re.findall "7. unknown" = [tok] -> s <> tok).
Proof.
  assert (flu_cold <> []) as Hne by discriminate.
  assert (int_keyed flu_cold) as Hint by reflexivity.
  assert (keys_have_str flu_cold) as Hstr by reflexivity.
  assert (Re.findall "7. unknown" = []
          \/ exists tok, Re.findall "7. unknown" = [tok]
                         /\ within_limit tok = true
                         /\ is_label_key flu_cold tok = false) as Hcase
    by (right; exists "7"; repeat split; reflexivity).
  exact (extract_label_fallback_member counter_randbelow "7. unknown" flu_cold
           (World 1 []) counter_randbelow_ok Hne Hint Hstr Hcase).
Defined.

Lemma extract_label_deterministic_part_witness :
  fst (extract_label counter_randbelow "2. cold" flu_cold (World 0 []))
  = fst (extract_label counter_randbelow "2. cold" flu_cold (World 5 [NoSQLFound]))
  /\ rng (snd (extract_label counter_randbelow "2. cold" flu_cold (World 0 []))) = 0.
Proof.
  assert (2 <= length (Re.findall "2. cold")
          \/ exists tok, Re.findall "2. cold" = [tok]
                         /\ is_label_key flu_cold tok = true) as Hcase
    by (right; exists "2"; split; reflexivity).
  exact (proj2 (extract_label_deterministic_part counter_randbelow "2. cold"
                  flu_cold) Hcase (World 0 []) (World 5 [NoSQLFound])).
Defined.

Lemma extract_label_total_witness :
  randbelow_ok counter_randbelow /\ flu_cold_str <> []
  /\ keys_have_str flu_cold_str
  /\ (forall tok, Re.findall "7. unknown" = [tok] -> within_limit tok = true)
  /\ exists r w',
       extract_label counter_randbelow "7. unknown" flu_cold_str (World 0 [])
       = (Ret r, w').
Proof.
  assert (flu_cold_str <> []) as Hne by discriminate.
  assert (keys_have_str flu_cold_str) as Hstr by reflexivity.
  assert (forall tok, Re.findall "7. unknown" = [tok] -> within_limit tok = true)
    as Hlim by (intros tok [= <-]; reflexivity).
  repeat (split; [assumption || exact counter_randbelow_ok|]).
  exact (extract_label_total counter_randbelow "7. unknown" flu_cold_str
           (World 0 []) counter_randbelow_ok Hne Hstr Hlim).
Defined.

Lemma extract_label_needs_int_keys_witness :
  Re.findall "2. cold" = ["2"] /\ within_limit "2" = true
  /\ str_keyed flu_cold_str
  /\ extract_label counter_randbelow "2. cold" flu_cold_str (World 0 [])
     = fallback counter_randbelow (NotInLabelSet "2. cold") flu_cold_str (World 0 []).
Proof.
  assert (Re.findall "2. cold" = ["2"]) as F by reflexivity.
  assert (within_limit "2" = true) as Hlim by reflexivity.
  assert (str_keyed flu_cold_str) as Hstr by reflexivity.
  repeat (split; [assumption|]).
  exact (proj1 (proj2 (extract_label_needs_int_keys counter_randbelow "2. cold"
                         flu_cold_str "2" (World 0 []) F)) Hlim Hstr).
Defined.

(** Peels one character off the prefix [a] of a decomposition [H]. *)
Ltac peel a H :=
  destruct a as [|? a];
  [simpl in H; discriminate H | simpl in H; injection H as _ H].

Lemma parse_sql_first_block_witness :
  parse_sql sql_example (World 0 []) = (Ret "SELECT 1;", World 0 []).
Proof.
  refine (proj1 (parse_sql_first_block (G := nat)
                   "prefix " (LF ++ "SELECT 1;" ++ LF) " suffix" (World 0 []) _ _)).
  - intros a b H. do 7 peel a H. simpl. lia.
  - intros a b H. do 11 peel a H. simpl. lia.
Defined.

Lemma parse_sql_no_block_witness :
  parse_sql "```sql SELECT 1;" (World 0 [])
  = (Ret "```sql SELECT 1;", World 0 [NoSQLFound]).
Proof.
  exact (parse_sql_no_block (G := nat) "```sql SELECT 1;" (World 0 [])
           (ReFacts.search_sql_none_inv "```sql SELECT 1;" eq_refl)).
Defined.

Lemma select_agent_dispatch_witness :
  select_agent "classification_public" = Ret (32%Z, ClassificationAgent)
  /\ select_agent "sql_generation_public" = Ret (512%Z, SQLGenerationAgent)
  /\ select_agent "summarization"
     = Raise (ValueError "Invalid benchmark name: summarization").
Proof.
  destruct select_agent_dispatch as (Hc & Hs & He).
  split; [exact (Hc "_public")|]. split; [exact (Hs "_public")|].
  apply He; intros r H; simpl in H; discriminate H.
Defined.

(** ** How the token scan composes *)

Module ScanFacts.
Import PyStr Re ReFacts.

Lemma append_nil_r (a : string) : a ++ EmptyString = a.
Proof.
  induction a as [|c a IH]; simpl; [reflexivity|]. now rewrite IH.
Qed.

(** The matcher step with the test for the period written out. *)
Lemma match_digits_dot_eq c s :
  match_digits_dot (String c s) =
  if is_digit c then
    match match_digits_dot s with
    | Some (ds, rest) => Some (String c ds, rest)
    | None =>
        match s with
        | String d rest =>
            if Ascii.eqb d "." then Some (String c EmptyString, rest) else None
        | EmptyString => None
        end
    end
  else None.
Proof.
  simpl. destruct (is_digit c); [|reflexivity].
  destruct (match_digits_dot s) as [[ds r]|]; [reflexivity|].
  destruct s as [|d rest]; [reflexivity|].
  destruct d as [[|] [|] [|] [|] [|] [|] [|] [|]]; reflexivity.
Qed.

Lemma match_digits_dot_not_digit s :
  starts_token_tail s = false -> match_digits_dot s = None.
Proof.
  destruct s as [|c s]; [reflexivity|]. unfold starts_token_tail. simpl head_char.
  intros H. apply orb_false_iff in H as [Hd _].
  now rewrite match_digits_dot_eq, Hd.
Qed.

Lemma ends_in_digit_cons c d a :
  ends_in_digit (String c (String d a)) = ends_in_digit (String d a).
Proof. reflexivity. Qed.

Lemma ends_in_digit_app x y :
  y <> EmptyString -> ends_in_digit (x ++ y) = ends_in_digit y.
Proof.
  intros Hy. induction x as [|c x IH]; [reflexivity|].
  simpl append. destruct (x ++ y) as [|d r] eqn:E.
  - destruct x; simpl in E; [congruence|discriminate].
  - now rewrite ends_in_digit_cons.
Qed.

(** With no token across the seam, the matcher on [a ++ b] does what it
    does on [a]. *)
Lemma match_digits_dot_app a b :
  a <> EmptyString -> can_straddle a b = false ->
  match_digits_dot (a ++ b) =
  match match_digits_dot a with
  | Some (g, r) => Some (g, r ++ b)
  | None => None
  end.
Proof.
  induction a as [|c a IH]; [congruence|]. intros _ Hs.
  simpl append. rewrite !match_digits_dot_eq.
  destruct (is_digit c) eqn:Hc; [|reflexivity].
  destruct a as [|d a].
  - simpl append. simpl (match_digits_dot EmptyString).
    unfold can_straddle, ends_in_digit in Hs. simpl in Hs. rewrite Hc in Hs.
    simpl in Hs. rewrite (match_digits_dot_not_digit _ Hs).
    destruct b as [|e b]; [reflexivity|].
    unfold starts_token_tail in Hs. simpl in Hs.
    apply orb_false_iff in Hs as [_ He]. rewrite He. reflexivity.
  - rewrite IH; [|discriminate|].
    + destruct (match_digits_dot (String d a)) as [[ds r]|]; [reflexivity|].
      cbn iota beta delta [append]. now destruct (Ascii.eqb d ".").
    + unfold can_straddle in *. now rewrite ends_in_digit_cons in Hs.
Qed.

Lemma can_straddle_suffix x y b :
  can_straddle (x ++ y) b = false -> can_straddle y b = false.
Proof.
  destruct y as [|c y]; [reflexivity|].
  unfold can_straddle. now rewrite ends_in_digit_app.
Qed.

(** A digit run and its period at the head of the text are the first token. *)
Lemma findall_token g x :
  is_digit_run g = true -> findall (g ++ String "." x) = g :: findall x.
Proof.
  intros Hg. destruct g as [|c g]; [discriminate|].
  apply findall_match. now apply (match_digits_dot_complete (String c g)).
Qed.

Lemma findall_not_digit c s :
  is_digit c = false -> findall (String c s) = findall s.
Proof.
  intros Hc. apply findall_skip. now rewrite match_digits_dot_eq, Hc.
Qed.

(** Without a token across the seam, the scan of [a ++ b] is the scan of
    [a] followed by the scan of [b]. *)
Lemma findall_seam a b :
  can_straddle a b = false ->
  findall (a ++ b) = (findall a ++ findall b)%list.
Proof.
  funelim (findall a); intros Hs.
  - reflexivity.
  - pose proof (match_digits_dot_app (String c s') b) as M.
    rewrite e in M. specialize (M ltac:(discriminate) Hs).
    simpl append in M |- *. rewrite (ReFacts.findall_match _ _ _ _ M).
    simpl. f_equal.
    match goal with
    | IH : forall b, _ -> findall (rest ++ b) = _ |- _ => apply IH
    end.
    destruct (ReFacts.match_digits_dot_spec _ _ _ e) as [Hsplit _].
    apply (can_straddle_suffix (g ++ ".") rest).
    rewrite ReFacts.append_assoc. simpl. simpl in Hsplit.
    now rewrite <- Hsplit.
  - pose proof (match_digits_dot_app (String c s') b) as M.
    rewrite e in M. specialize (M ltac:(discriminate) Hs).
    simpl append in M |- *. rewrite (ReFacts.findall_skip _ _ M).
    match goal with
    | IH : forall b, _ -> findall (s' ++ b) = _ |- _ => apply IH
    end.
    apply (can_straddle_suffix (String c EmptyString) s'). exact Hs.
Qed.

End ScanFacts.

(** ** More about the token scan and the option list *)

(** X1.  The tokens of a concatenation are the tokens of its two parts, in
    order, whenever no token can lie across the seam: the first part does
    not end in a digit, or the second starts with neither a digit nor a
    period. *)
Theorem findall_app a b :
  can_straddle a b = false ->
  Re.findall (a ++ b) = (Re.findall a ++ Re.findall b)%list.
Proof. apply ScanFacts.findall_seam. Qed.

(** X2.  The option list parses back to its keys: when [str()] of every
    key succeeds and is a digit run, and no description holds a token, the
    option list is built and its tokens are the strings of the keys, in the
    order of the dictionary. *)
Theorem findall_option_text d strs :
  Forall2 (fun kv s => py_str (fst kv) = Some s
                       /\ is_digit_run s = true
                       /\ Re.findall (snd kv) = []) d strs ->
  exists text, option_text d = Some text /\ Re.findall text = strs.
Proof.
  unfold option_text.
  induction 1 as [|kv s d strs (Hs & Hk & Hv) Hd (text & IH & Hfind)].
  - now exists EmptyString.
  - assert (forall tail, can_straddle (snd kv) (LF ++ tail) = false) as Hseam.
    { intros tail. unfold can_straddle. simpl starts_token_tail.
      apply andb_false_r. }
    simpl option_lines. unfold option_line. rewrite Hs. simpl option_map at 1.
    destruct (option_lines d) as [[|l ls]|]; simpl in IH; [| |discriminate];
      injection IH as <-.
    + exists (s ++ ". " ++ snd kv). split; [reflexivity|].
      change (s ++ ". " ++ snd kv) with (s ++ String "." (" " ++ snd kv)).
      rewrite (ScanFacts.findall_token _ _ Hk). f_equal.
      simpl append. rewrite ScanFacts.findall_not_digit by reflexivity.
      rewrite Hv, <- Hfind. reflexivity.
    + exists ((s ++ ". " ++ snd kv) ++ LF ++ String.concat LF (l :: ls)).
      split; [reflexivity|].
      rewrite !ReFacts.append_assoc.
      change (". " ++ snd kv ++ LF ++ String.concat LF (l :: ls))
        with (String "." (String " " (snd kv ++ LF ++ String.concat LF (l :: ls)))).
      rewrite (ScanFacts.findall_token _ _ Hk). f_equal.
      rewrite ScanFacts.findall_not_digit by reflexivity.
      rewrite (ScanFacts.findall_seam _ _ (Hseam _)), Hv. simpl app.
      unfold LF. simpl append.
      rewrite ScanFacts.findall_not_digit by reflexivity.
      exact Hfind.
Qed.

(** X11.  [int(number)] raises on a token exactly when the token has more
    than [max_str_digits] digits; on every other token it gives an integer
    that is not negative, so a negative key is never matched. *)
Theorem findall_values_nonneg text tok :
  In tok (Re.findall text) ->
  (within_limit tok = true -> exists z, PyStr.py_int tok = Some z /\ (0 <= z)%Z)
  /\ (within_limit tok = false -> PyStr.py_int tok = None).
Proof.
  intros Hin.
  assert (is_digit_run tok = true) as Hrun.
  { pose proof (ReFacts.findall_digit_runs text) as F.
    rewrite Forall_forall in F. now apply F. }
  split.
  - now apply PyStrFacts.py_int_digit_run.
  - now apply PyStrFacts.py_int_over_limit.
Qed.

(** ** More about [extract_label] *)

Section ExtractLabelMore.

Context {G : Type}.
Variable randbelow : G -> nat -> nat * G.

Lemma fallback_returns m d (w w' : world G) r :
  fallback randbelow m d w = (Ret r, w') ->
  exists k, In k (keys d) /\ py_str k = Some r.
Proof.
  unfold fallback, bind, print, random_choice, str_. simpl.
  destruct (keys d) as [|k ks]; [discriminate|].
  destruct (randbelow (rng w) (length (k :: ks))) as [i g'].
  destruct (nth_error (k :: ks) i) as [x|] eqn:Hn; [|discriminate].
  destruct (py_str x) as [s|] eqn:Hs; [|discriminate].
  intros [= <- _]. exists x. split; [|assumption].
  eapply nth_error_In; eassumption.
Qed.

Lemma fallback_empty m (w : world G) :
  fallback randbelow m [] w
  = (Raise IndexError, World (rng w) (stdout w ++ [m])).
Proof. reflexivity. Qed.

(** X3.  A response in the format the prompt asks for is parsed to its
    key: free text that holds no token and does not end in a digit, then
    [str(key)] of a non-negative integer key of the dictionary, a period, and
    text that holds no token, gives the string of that key, with no warning
    and no draw. *)
Theorem extract_label_answer_format d lead z s tail w :
  In (PInt z) (keys d) -> (0 <= z)%Z -> PyStr.str_of_int z = Some s ->
  Re.findall lead = [] -> ends_in_digit lead = false ->
  Re.findall tail = [] ->
  extract_label randbelow (lead ++ s ++ String "." tail) d w = (Ret s, w).
Proof.
  intros Hin Hz Hs Hlead Hend Htail.
  apply (extract_label_valid _ _ _ _ _ z).
  - rewrite ScanFacts.findall_seam by (unfold can_straddle; now rewrite Hend).
    rewrite (ScanFacts.findall_token _ _ (PyStrFacts.str_of_int_digit_run z s Hz Hs)).
    now rewrite Hlead, Htail.
  - now apply PyStrFacts.py_int_str_of_int.
  - now apply contains_int_key.
Qed.

(** X4.  What [extract_label] returns is never made up: it is either a digit
    run that stands in the text right before a period, or the string of a
    key of the dictionary. *)
Theorem extract_label_provenance text d w r w' :
  extract_label randbelow text d w = (Ret r, w') ->
  (is_digit_run r = true
   /\ exists pre post, text = pre ++ r ++ String "." post)
  \/ (exists k, In k (keys d) /\ py_str k = Some r).
Proof.
  intros E.
  assert (forall tok l, Re.findall text = tok :: l ->
            is_digit_run tok = true
            /\ exists pre post, text = pre ++ tok ++ String "." post) as Htok.
  { intros tok l F. split.
    - pose proof (ReFacts.findall_digit_runs text) as R. rewrite F in R.
      now inversion R.
    - destruct (ReFacts.findall_first _ _ _ F) as (pre & post & Hs & _).
      now exists pre, post. }
  destruct (Re.findall text) as [|tok [|t2 rest]] eqn:F.
  - rewrite (extract_label_none _ _ _ _ F) in E.
    right. eapply fallback_returns; eassumption.
  - destruct (within_limit tok) eqn:Hlim.
    + destruct (single_match_int _ _ F Hlim) as [n Hn].
      destruct (contains n d) eqn:C.
      * rewrite (extract_label_valid _ _ _ _ _ _ F Hn C) in E.
        injection E as <- _. left. now apply (Htok tok []).
      * rewrite (extract_label_invalid _ _ _ _ _ _ F Hn C) in E.
        right. eapply fallback_returns; eassumption.
    + rewrite (extract_label_over_limit _ _ _ _ _ F Hlim) in E. discriminate.
  - rewrite (extract_label_several _ _ _ _ _ _ _ F) in E.
    injection E as <- _. left. now apply (Htok tok (t2 :: rest)).
Qed.

(** X5.  With an empty dictionary [extract_label] raises [IndexError]
    exactly when the text has no token, or a single token of at most
    [max_str_digits] digits: a longer single token raises [ValueError] at
    [int(number)] first, and two or more tokens still return the first. *)
Theorem extract_label_empty_dict text (w : world G) :
  fst (extract_label randbelow text [] w) = Raise IndexError
  <-> (Re.findall text = []
       \/ exists tok, Re.findall text = [tok] /\ within_limit tok = true).
Proof.
  destruct (Re.findall text) as [|tok [|t2 rest]] eqn:F.
  - rewrite (extract_label_none _ _ _ _ F), fallback_empty. simpl.
    split; auto.
  - destruct (within_limit tok) eqn:Hlim.
    + destruct (single_match_int _ _ F Hlim) as [n Hn].
      rewrite (extract_label_invalid randbelow text [] w tok n F Hn eq_refl),
        fallback_empty.
      simpl. split; [|reflexivity]. intros _. right. now exists tok.
    + rewrite (extract_label_over_limit _ _ _ _ _ F Hlim). simpl. split.
      * discriminate.
      * intros [H | (tok' & [= <-] & H)]; [discriminate|congruence].
  - rewrite (extract_label_several _ _ _ _ _ _ _ F). simpl. split.
    + discriminate.
    + intros [H | (tok' & H & _)]; discriminate.
Qed.

End ExtractLabelMore.

(** ** More about [parse_sql] *)

Module FenceFacts.
Import PyStr Re ReFacts.

(** What the lazy star takes holds no closing fence. *)
Lemma match_lazy_fence_no_fence s g :
  match_lazy_fence s = Some g -> forall a b, g <> a ++ "```" ++ b.
Proof.
  revert g; induction s as [|c s IH]; intros g; rewrite match_lazy_fence_eq.
  - simpl. discriminate.
  - destruct (match_literal "```" (String c s)) as [r|] eqn:E.
    + intros [= <-] a b H. destruct a; simpl in H; discriminate H.
    + destruct (match_lazy_fence s) as [g'|] eqn:El; [|discriminate].
      intros [= <-] a b H. destruct a as [|x a].
      * destruct (match_lazy_fence_sound _ _ El) as [post Hs].
        apply (match_literal_none _ _ E (b ++ "```" ++ post)).
        rewrite Hs.
        change (String c (g' ++ "```" ++ post))
          with (String c g' ++ "```" ++ post).
        simpl in H. rewrite H. reflexivity.
      * simpl in H. injection H as _ H. now apply (IH _ eq_refl a b).
Qed.

(** So does the group of a successful search. *)
Lemma search_sql_no_fence s g :
  search_sql s = Some g -> forall a b, g <> a ++ "```" ++ b.
Proof.
  revert g; induction s as [|c s IH]; intros g; rewrite search_sql_eq;
    unfold match_sql_block.
  - simpl. discriminate.
  - destruct (match_literal "```sql" (String c s)) as [after|].
    + destruct (match_lazy_fence after) as [g'|] eqn:El.
      * intros [= <-]. now apply (match_lazy_fence_no_fence after).
      * apply IH.
    + apply IH.
Qed.

Lemma strip_no_fence g :
  (forall a b, g <> a ++ "```" ++ b) ->
  forall a b, strip g <> a ++ "```" ++ b.
Proof.
  intros Hg a b H.
  destruct (StripFacts.strip_spec g) as (l & t & E & _).
  apply (Hg (l ++ a) (b ++ t)). rewrite E at 1. rewrite H.
  now rewrite !append_assoc.
Qed.

Lemma no_fence_no_block r :
  (forall a b, r <> a ++ "```" ++ b) -> search_sql r = None.
Proof.
  intros H. apply search_sql_none. intros pre body post E.
  apply (H pre ("sql" ++ body ++ "```" ++ post)). exact E.
Qed.

End FenceFacts.

Section ParseSqlMore.

Context {G : Type}.

(** X6.  Whenever the text holds a fenced sql block, wherever it is,
    [parse_sql] prints nothing and returns the stripped content of a block
    of the text. *)
Theorem parse_sql_some_block pre body post (w : world G) :
  exists pre0 body0 post0,
    pre ++ "```sql" ++ body ++ "```" ++ post
    = pre0 ++ "```sql" ++ body0 ++ "```" ++ post0
    /\ parse_sql (pre ++ "```sql" ++ body ++ "```" ++ post) w
       = (Ret (PyStr.strip body0), w).
Proof.
  pose proof (ReFacts.search_sql_complete pre body post) as Hc.
  destruct (Re.search_sql (pre ++ "```sql" ++ body ++ "```" ++ post))
    as [g|] eqn:E; [|now elim Hc].
  destruct (ReFacts.search_sql_sound _ _ E) as (pre0 & post0 & Hs).
  exists pre0, g, post0. split; [exact Hs|].
  unfold parse_sql. now rewrite E.
Qed.

(** X7.  [parse_sql] never raises and never writes text of its own: its
    result is a piece of the input. *)
Theorem parse_sql_substring text (w : world G) :
  exists r w' a b,
    parse_sql text w = (Ret r, w') /\ text = a ++ r ++ b.
Proof.
  unfold parse_sql. destruct (Re.search_sql text) as [g|] eqn:E.
  - destruct (ReFacts.search_sql_sound _ _ E) as (pre & post & Hs).
    destruct (StripFacts.strip_spec g) as (l & t & Hg & _).
    exists (PyStr.strip g), w, (pre ++ "```sql" ++ l), (t ++ "```" ++ post).
    split; [reflexivity|].
    rewrite Hs. rewrite Hg at 1. now rewrite !ReFacts.append_assoc.
  - exists text, (World (rng w) (stdout w ++ [NoSQLFound])), EmptyString, EmptyString.
    split; [reflexivity|]. simpl. now rewrite ScanFacts.append_nil_r.
Qed.

(** X8.  The result of [parse_sql] holds no fenced sql block, so parsing it
    again gives it back unchanged (with the warning). *)
Theorem parse_sql_idempotent text (w : world G) :
  exists r w',
    parse_sql text w = (Ret r, w')
    /\ Re.search_sql r = None
    /\ forall w2 : world G,
         parse_sql r w2 = (Ret r, World (rng w2) (stdout w2 ++ [NoSQLFound])).
Proof.
  assert (forall r, Re.search_sql r = None ->
            forall w2 : world G,
              parse_sql r w2 = (Ret r, World (rng w2) (stdout w2 ++ [NoSQLFound])))
    as Hagain by (intros r Hr w2; unfold parse_sql; now rewrite Hr).
  unfold parse_sql at 1. destruct (Re.search_sql text) as [g|] eqn:E.
  - assert (Re.search_sql (PyStr.strip g) = None) as Hn
      by (apply FenceFacts.no_fence_no_block, FenceFacts.strip_no_fence;
          now apply (FenceFacts.search_sql_no_fence text)).
    exists (PyStr.strip g), w. repeat split; auto.
  - exists text, (World (rng w) (stdout w ++ [NoSQLFound])). repeat split; auto.
Qed.

(** X9.  When the text holds a fenced sql block, the result of [parse_sql]
    holds no triple backtick at all. *)
Theorem parse_sql_result_no_fence pre body post (w : world G) :
  exists r,
    parse_sql (pre ++ "```sql" ++ body ++ "```" ++ post) w = (Ret r, w)
    /\ forall a b, r <> a ++ "```" ++ b.
Proof.
  pose proof (ReFacts.search_sql_complete pre body post) as Hc.
  destruct (Re.search_sql (pre ++ "```sql" ++ body ++ "```" ++ post))
    as [g|] eqn:E; [|now elim Hc].
  exists (PyStr.strip g). split.
  - unfold parse_sql. now rewrite E.
  - apply FenceFacts.strip_no_fence. now apply (FenceFacts.search_sql_no_fence _ _ E).
Qed.

End ParseSqlMore.

(** ** The new tokens of [generate_response] *)

Lemma skipn_length_app {A : Type} (i n : list A) :
  skipn (length i) (i ++ n)%list = n.
Proof. induction i as [|x i IH]; simpl; auto. Qed.

(** X10.  When every generated sequence is its prompt followed by new
    tokens, as a causal model returns it, the comprehension of
    [generate_response] gives back exactly the new tokens of each sequence. *)
Theorem new_generated_ids_continuations {A : Type}
    (input_ids continuations : list (list A)) :
  length input_ids = length continuations ->
  new_generated_ids input_ids
    (map (fun p => (fst p ++ snd p)%list) (combine input_ids continuations))
  = continuations.
Proof.
  unfold new_generated_ids. revert continuations.
  induction input_ids as [|i input_ids IH]; intros [|n conts]; simpl;
    try discriminate; [reflexivity|].
  intros [= Hlen]. now rewrite skipn_length_app, IH.
Qed.

(** ** The further theorems at concrete inputs *)

Lemma findall_app_witness :
  can_straddle "1. flu" (LF ++ "2. cold") = false
  /\ Re.findall ("1. flu" ++ LF ++ "2. cold")
     = (Re.findall "1. flu" ++ Re.findall (LF ++ "2. cold"))%list.
Proof.
  split; [reflexivity|].
  exact (findall_app "1. flu" (LF ++ "2. cold") eq_refl).
Defined.

Lemma findall_option_text_witness :
  exists text,
    option_text flu_cold = Some text /\ Re.findall text = ["1"; "2"].
Proof.
  refine (findall_option_text flu_cold ["1"; "2"] _).
  repeat constructor.
Defined.

Lemma findall_values_nonneg_witness :
  In "7" (Re.findall "7. unknown")
  /\ (within_limit "7" = true -> exists z, PyStr.py_int "7" = Some z /\ (0 <= z)%Z)
  /\ (within_limit "7" = false -> PyStr.py_int "7" = None).
Proof.
  assert (In "7" (Re.findall "7. unknown")) as Hin by (left; reflexivity).
  split; [assumption|].
  exact (findall_values_nonneg "7. unknown" "7" Hin).
Defined.

Lemma extract_label_answer_format_witness :
  extract_label counter_randbelow "I think 2. cold" flu_cold (World 0 [])
  = (Ret "2", World 0 []).
Proof.
  refine (extract_label_answer_format counter_randbelow flu_cold
            "I think " 2 "2" " cold" (World 0 []) _ _ _ _ _ _).
  - simpl; auto.
  - lia.
  - reflexivity.
  - reflexivity.
  - reflexivity.
  - reflexivity.
Defined.

Lemma extract_label_provenance_witness :
  (is_digit_run "3" = true
   /\ exists pre post, "3. migraine or 1. flu" = pre ++ "3" ++ String "." post)
  \/ (exists k, In k (keys flu_cold) /\ py_str k = Some "3").
Proof.
  exact (extract_label_provenance counter_randbelow "3. migraine or 1. flu"
           flu_cold (World 0 []) "3" (World 0 [NotExactlyOne ["3"; "1"]])
           eq_refl).
Defined.

Lemma new_generated_ids_continuations_witness :
  new_generated_ids [[1; 2]; [3]] [[1; 2; 9]; [3; 8; 7]] = [[9]; [8; 7]].
Proof.
  exact (new_generated_ids_continuations [[1; 2]; [3]] [[9]; [8; 7]] eq_refl).
Defined.
